(** * scene_builder.ts: the scaling and animation core of the Solar System scene

    A shallow embedding of the numeric core of [src/scene_builder.ts]:
    [compressSize], [createPlanet], [updatePlanetPositions], [animate],
    [updateOrbitalSpeed] and [updateCompressionAmount], with the properties
    the specification states about them, and of the code around it:
    [fetchPlanetPositions], [formatPlanetData], [init],
    [createSolarSystem], [createOrbit], [createStars], [updateCamera],
    [onCanvasClick] and [closePopup], with properties read off the code.

    Numbers. A JavaScript number is an IEEE 754 double.  The embedding keeps
    the four kinds of value the arithmetic of the program distinguishes:
    finite values, the two infinities and NaN.  Operations on the special
    values follow ECMAScript (a division by zero yields an infinity or NaN,
    never an exception); operations on finite values are exact real
    arithmetic, so rounding and overflow of the binary64 format are outside
    the model, and the two zeros are identified (a zero divisor is read as
    [+0], the zero the literals of the program denote).  The statements
    proved in this model say so where rounding makes a difference, and
    the module [Binary64] evaluates [compressSize] on the doubles
    themselves, to show what rounding does to the equalities that hold in
    exact arithmetic. *)

From Stdlib Require Import Reals Lra Lia ZArith List String.
From Stdlib Require PrimFloat.
Import ListNotations.

Open Scope R_scope.

(** ** JavaScript numbers *)

Module Num.

Inductive number : Type :=
| Fin (r : R)
| PInf
| NInf
| NaN.

Definition neg (a : number) : number :=
  match a with
  | Fin x => Fin (- x)
  | PInf => NInf
  | NInf => PInf
  | NaN => NaN
  end.

(** [a + b] *)
Definition add (a b : number) : number :=
  match a, b with
  | NaN, _ | _, NaN => NaN
  | PInf, NInf | NInf, PInf => NaN
  | PInf, _ | _, PInf => PInf
  | NInf, _ | _, NInf => NInf
  | Fin x, Fin y => Fin (x + y)
  end.

(** [a - b] *)
Definition sub (a b : number) : number := add a (neg b).

(** The infinity with the sign of [x], NaN when [x] is zero. *)
Definition inf_signed (x : R) : number :=
  if Req_dec_T x 0 then NaN else if Rlt_dec 0 x then PInf else NInf.

(** [a * b] *)
Definition mul (a b : number) : number :=
  match a, b with
  | NaN, _ | _, NaN => NaN
  | Fin x, Fin y => Fin (x * y)
  | PInf, Fin y | Fin y, PInf => inf_signed y
  | NInf, Fin y | Fin y, NInf => inf_signed (- y)
  | PInf, PInf | NInf, NInf => PInf
  | PInf, NInf | NInf, PInf => NInf
  end.

(** [a / b]; a finite zero divisor is [+0]. *)
Definition div (a b : number) : number :=
  match a, b with
  | NaN, _ | _, NaN => NaN
  | Fin x, Fin y => if Req_dec_T y 0 then inf_signed x else Fin (x / y)
  | Fin _, PInf | Fin _, NInf => Fin 0
  | PInf, Fin y => if Rlt_dec y 0 then NInf else PInf
  | NInf, Fin y => if Rlt_dec y 0 then PInf else NInf
  | PInf, PInf | PInf, NInf | NInf, PInf | NInf, NInf => NaN
  end.

(** [a === b] on numbers: NaN is equal to nothing. *)
Definition strict_eq (a b : number) : bool :=
  match a, b with
  | Fin x, Fin y => if Req_dec_T x y then true else false
  | PInf, PInf | NInf, NInf => true
  | _, _ => false
  end.

(** [a <= b] on numbers: false as soon as one side is NaN. *)
Definition le (a b : number) : Prop :=
  match a, b with
  | NaN, _ | _, NaN => False
  | NInf, _ | _, PInf => True
  | Fin x, Fin y => x <= y
  | PInf, _ | _, NInf => False
  end.

(** [a < b] on numbers. *)
Definition lt (a b : number) : Prop :=
  match a, b with
  | NaN, _ | _, NaN => False
  | PInf, _ | _, NInf => False
  | Fin x, Fin y => x < y
  | NInf, _ | _, PInf => True
  end.

Definition is_finite (a : number) : Prop :=
  match a with Fin _ => True | _ => False end.

(** [y] is the image of an integer. *)
Definition is_integer (y : R) : bool :=
  if Req_dec_T (IZR (Int_part y)) y then true else false.

(** [y] is the image of an odd integer. *)
Definition is_odd_integer (y : R) : bool :=
  is_integer y && Z.odd (Int_part y).

(** [Math.pow(base, exponent)], case by case as Number::exponentiate of
    ECMAScript lists them; the last case, a finite nonzero base with a
    finite nonzero exponent, is the real power. *)
Definition pow (base exponent : number) : number :=
  match exponent with
  | NaN => NaN
  | Fin e =>
      if Req_dec_T e 0 then Fin 1 else
      match base with
      | NaN => NaN
      | PInf => if Rlt_dec 0 e then PInf else Fin 0
      | NInf =>
          if Rlt_dec 0 e
          then (if is_odd_integer e then NInf else PInf)
          else Fin 0
      | Fin b =>
          if Req_dec_T b 0 then (if Rlt_dec 0 e then Fin 0 else PInf)
          else if Rlt_dec 0 b then Fin (Rpower b e)
          else if is_integer e
               then Fin (if Z.odd (Int_part e)
                         then - Rpower (- b) e else Rpower (- b) e)
               else NaN
      end
  | PInf =>
      match base with
      | NaN => NaN
      | PInf | NInf => PInf
      | Fin b =>
          if Rlt_dec 1 (Rabs b) then PInf
          else if Req_dec_T (Rabs b) 1 then NaN else Fin 0
      end
  | NInf =>
      match base with
      | NaN => NaN
      | PInf | NInf => Fin 0
      | Fin b =>
          if Rlt_dec 1 (Rabs b) then Fin 0
          else if Req_dec_T (Rabs b) 1 then NaN else PInf
      end
  end.

(** [Math.cos] and [Math.sin]: NaN outside the finite numbers. *)
Definition cos (a : number) : number :=
  match a with Fin x => Fin (Rtrigo_def.cos x) | _ => NaN end.

Definition sin (a : number) : number :=
  match a with Fin x => Fin (Rtrigo_def.sin x) | _ => NaN end.

(** [Math.PI] *)
Definition PI : number := Fin Rtrigo1.PI.

End Num.

Import Num.

Declare Scope num_scope.
Delimit Scope num_scope with num.
Bind Scope num_scope with number.
Infix "+" := add : num_scope.
Infix "-" := sub : num_scope.
Infix "*" := mul : num_scope.
Infix "/" := div : num_scope.
Infix "<=" := Num.le : num_scope.
Infix "<" := Num.lt : num_scope.
Infix "===" := strict_eq (at level 70, no associativity) : num_scope.

(** ** Values read from the fetched data

    A field of the fetched JSON that the program uses in arithmetic holds a
    number, holds [null], or is missing ([undefined]). *)

Inductive jsval : Type :=
| JUndefined
| JNull
| JNum (n : number).

(** ToNumber, as the arithmetic operators apply it to their operands. *)
Definition ToNumber (v : jsval) : number :=
  match v with
  | JUndefined => NaN
  | JNull => Fin 0
  | JNum n => n
  end.

(** ** Constants and the compression function *)

Definition SUN_RADIUS : number := Fin 696340.
Definition PLANET_SCALE : number := Fin 4.
Definition DISTANCE_SCALE : number := Fin 10.

(** [compressSize(input)], with the global [compressionAmount] it reads as
    first argument. *)
Definition compressSize (compressionAmount input : number) : number :=
  (pow input (Fin 1 / compressionAmount) + SUN_RADIUS
   - pow SUN_RADIUS (Fin 1 / compressionAmount))%num.

(** ** The scene: descriptors, meshes and the global variables *)

(** A descriptor as [formatPlanetData] and [getSunData] build it.  The
    fields [distance], [radius] and [orbitalPeriod] hold numbers (the
    formatting code calls [toFixed] on them); [rotationPeriod] is guarded
    there with a conditional and may be missing or [null].  The texture and
    the text fields play no part in the arithmetic and are left out. *)
Module Planet.
Record t : Type := mk {
  name : string;
  distance : number;
  radius : number;
  orbitalPeriod : number;
  rotationPeriod : jsval
}.
End Planet.

(** [planetMesh.userData]: the descriptor spread, [distance] overwritten,
    and the two accumulated angles. *)
Record userData : Type := mkUserData {
  name : string;
  distance : number;
  radius : number;
  orbitalPeriod : number;
  rotationPeriod : jsval;
  orbitAngle : number;
  rotationAngle : number
}.

Record vec3 : Type := mkVec3 { x : number; y : number; z : number }.

Definition origin : vec3 := mkVec3 (Fin 0) (Fin 0) (Fin 0).

(** The part of a [THREE.Mesh] the program reads and writes: the radius of
    its sphere geometry, its position, its rotation about the vertical axis,
    its scale and its [userData]. *)
Record mesh : Type := mkMesh {
  geometryRadius : number;
  position : vec3;
  rotation_y : number;
  scale : vec3;
  data : userData
}.

(** The module-level variables.  [selectedPlanet] refers to one of the
    meshes of [planetMeshes] and is kept as its index; [lastTime] and the
    clock readings are the integer milliseconds [Date.now] returns;
    [orbitalSpeed] is the number the product [deltaTime * orbitalSpeed]
    sees. *)
Record state : Type := mkState {
  compressionAmount : number;
  planetMeshes : list mesh;
  orbitalSpeed : number;
  selectedPlanet : option nat;
  lastTime : Z;
  cameraPosition : vec3
}.

(** [getSunData()] *)
Definition getSunData : Planet.t :=
  Planet.mk "sun" (Fin 0) SUN_RADIUS (Fin 0) (JNum (Fin 25.38)).

(** The two lengths [createPlanet] derives from a descriptor. *)
Definition adjustedDistance (planet : Planet.t) : number :=
  ((Planet.distance planet / Fin 1000 + SUN_RADIUS) * DISTANCE_SCALE)%num.

Definition planetRadius (planet : Planet.t) : number :=
  (Planet.radius planet * Fin 0.5 * PLANET_SCALE)%num.

(** The mesh [createPlanet] builds: a sphere of radius
    [compressSize(planetRadius)] placed at [x = adjustedDistance]. *)
Definition newPlanetMesh (k : number) (planet : Planet.t) : mesh :=
  mkMesh
    (compressSize k (planetRadius planet))
    (mkVec3 (adjustedDistance planet) (Fin 0) (Fin 0))
    (Fin 0)
    (mkVec3 (Fin 1) (Fin 1) (Fin 1))
    (mkUserData (Planet.name planet) (adjustedDistance planet)
       (Planet.radius planet) (Planet.orbitalPeriod planet)
       (Planet.rotationPeriod planet) (Fin 0) (Fin 0)).

(** [createPlanet(planet, ...)]: the new mesh is pushed on [planetMeshes]. *)
Definition createPlanet (planet : Planet.t) (st : state) : state :=
  mkState (compressionAmount st)
    (planetMeshes st ++ [newPlanetMesh (compressionAmount st) planet])
    (orbitalSpeed st) (selectedPlanet st) (lastTime st) (cameraPosition st).

(** [createSolarSystem(planets)] *)
Definition createSolarSystem (planets : list Planet.t) (st : state) : state :=
  fold_left (fun s planet => createPlanet planet s) planets st.

(** ** The per-frame update *)

(** The body of the [forEach] of [updatePlanetPositions], for one mesh. *)
Definition updateMesh (timeFactor : number) (planetMesh : mesh) : mesh :=
  let ud := data planetMesh in
  let orbitAngle' :=
    (orbitAngle ud
     + (Fin 2 * PI) / (orbitalPeriod ud * Fin 60) * timeFactor)%num in
  let rotationAngle' :=
    (rotationAngle ud
     + (Fin 2 * PI) / (ToNumber (rotationPeriod ud) * Fin 60) * timeFactor)%num in
  let moved :=
    mkVec3 (cos orbitAngle' * distance ud)%num
           (y (position planetMesh))
           (sin orbitAngle' * distance ud)%num in
  mkMesh (geometryRadius planetMesh)
    (if (orbitalPeriod ud === Fin 0)%num then origin else moved)
    rotationAngle'
    (scale planetMesh)
    (mkUserData (name ud) (distance ud) (radius ud) (orbitalPeriod ud)
       (rotationPeriod ud) orbitAngle' rotationAngle').

(** [updatePlanetPositions(timeFactor)] *)
Definition updatePlanetPositions (timeFactor : number) (st : state) : state :=
  mkState (compressionAmount st)
    (map (updateMesh timeFactor) (planetMeshes st))
    (orbitalSpeed st) (selectedPlanet st) (lastTime st) (cameraPosition st).

(** [Vector3.lerp(v, alpha)] *)
Definition lerp (p v : vec3) (alpha : number) : vec3 :=
  mkVec3 (x p + (x v - x p) * alpha)%num
         (y p + (y v - y p) * alpha)%num
         (z p + (z v - z p) * alpha)%num.

(** [updateCamera()]: the camera moves a tenth of the way to a point above
    and in front of the selected mesh.  The orientation [lookAt] sets
    belongs to the renderer. *)
Definition updateCamera (st : state) : state :=
  match selectedPlanet st with
  | None => st
  | Some i =>
      match nth_error (planetMeshes st) i with
      | None => st
      | Some sel =>
          let targetPosition :=
            mkVec3 (x (position sel))
                   (y (position sel) + Fin 400)%num
                   (z (position sel) + Fin 1.5e6)%num in
          mkState (compressionAmount st) (planetMeshes st) (orbitalSpeed st)
            (selectedPlanet st) (lastTime st)
            (lerp (cameraPosition st) targetPosition (Fin 0.1))
      end
  end.

(** The first lines of [animate]: the elapsed seconds since the last frame
    and the simulated time they stand for. *)
Definition deltaTime (now : Z) (st : state) : number :=
  ((Fin (IZR now) - Fin (IZR (lastTime st))) / Fin 1000)%num.

Definition timeFactor (now : Z) (st : state) : number :=
  (deltaTime now st * orbitalSpeed st)%num.

(** [animate()], one frame, [now] being what [Date.now()] returns, up to
    and including the call of [updateCamera].  The call [CONTROLS.update()]
    that follows, with which the orbit controls of the library rewrite the
    position of the camera on every frame, is not modelled, nor are the
    calls into the renderer and the clock display: [cameraPosition] is the
    position [updateCamera] leaves, and nothing is stated about the camera
    across frames. *)
Definition animate (now : Z) (st : state) : state :=
  let tf := timeFactor now st in
  let st1 :=
    mkState (compressionAmount st) (planetMeshes st) (orbitalSpeed st)
      (selectedPlanet st) now (cameraPosition st) in
  updateCamera (updatePlanetPositions tf st1).

(** Successive frames, one per clock reading. *)
Definition frames (clock : list Z) (st : state) : state :=
  fold_left (fun s now => animate now s) clock st.

(** Successive updates of one mesh, one per time factor. *)
Definition updates (timeFactors : list number) (planetMesh : mesh) : mesh :=
  fold_left (fun m tf => updateMesh tf m) timeFactors planetMesh.

(** ** The input handlers *)

(** [updateOrbitalSpeed(event)], [value] being the number the slider's
    value converts to. *)
Definition updateOrbitalSpeed (value : number) (st : state) : state :=
  mkState (compressionAmount st) (planetMeshes st) value
    (selectedPlanet st) (lastTime st) (cameraPosition st).

(** The rescaling [updateCompressionAmount] applies to every mesh. *)
Definition rescale (k : number) (planetMesh : mesh) : mesh :=
  let newScale :=
    (compressSize k (radius (data planetMesh)) / radius (data planetMesh))%num in
  mkMesh (geometryRadius planetMesh) (position planetMesh)
    (rotation_y planetMesh) (mkVec3 newScale newScale newScale)
    (data planetMesh).

(** [updateCompressionAmount(event)], [value] being what [parseFloat]
    returns for the slider's value. *)
Definition updateCompressionAmount (value : number) (st : state) : state :=
  mkState value (map (rescale value) (planetMeshes st))
    (orbitalSpeed st) (selectedPlanet st) (lastTime st) (cameraPosition st).

(** [closePopup()] *)
Definition closePopup (st : state) : state :=
  mkState (compressionAmount st) (planetMeshes st) (orbitalSpeed st)
    None (lastTime st) (cameraPosition st).

(** The values the module-level declarations give, [now0] being the clock
    reading at load time. *)
Definition initial (now0 : Z) : state :=
  mkState (Fin 1) [] (Fin 1) None now0
    (mkVec3 (Fin 0) (Fin 400) (Fin 1e7)).

(** ** Vocabulary of the statements *)

Abbreviation Rcos := Rtrigo_def.cos.
Abbreviation Rsin := Rtrigo_def.sin.
Abbreviation RPI := Rtrigo1.PI.

(** The angle a period [q] gains per unit of time factor: the quotient
    [(2 * Math.PI) / (q * 60)] of [updatePlanetPositions]. *)
Definition angularSpeed (q : number) : number :=
  ((Fin 2 * PI) / (q * Fin 60))%num.

(** The position [updatePlanetPositions] computes for an orbiting body: on
    the circle of radius [d], at angle [a], at height [h]. *)
Definition onOrbit (d a : R) (h : number) : vec3 :=
  mkVec3 (Fin (Rcos a * d)) h (Fin (Rsin a * d)).

(** The sum of a list of reals. *)
Definition total (ts : list R) : R := fold_right Rplus 0 ts.

(** What the host delivers to the program, one event at a time: an
    animation frame with its clock reading, an input on the speed slider,
    an input on the compression slider, a click that selects the mesh of
    index [i], a click on the close button. *)
Inductive event : Type :=
| Frame (now : Z)
| SpeedInput (value : number)
| CompressionInput (value : number)
| Select (i : nat)
| Close.

(** The [onClick] handlers: [selectedPlanet = planetMesh]. *)
Definition select (i : nat) (st : state) : state :=
  mkState (compressionAmount st) (planetMeshes st) (orbitalSpeed st)
    (Some i) (lastTime st) (cameraPosition st).

Definition handle (e : event) (st : state) : state :=
  match e with
  | Frame now => animate now st
  | SpeedInput value => updateOrbitalSpeed value st
  | CompressionInput value => updateCompressionAmount value st
  | Select i => select i st
  | Close => closePopup st
  end.

Definition run (events : list event) (st : state) : state :=
  fold_left (fun s e => handle e s) events st.

(** The value of the last compression input of a run, [k] when there is
    none. *)
Definition lastCompressionInput (events : list event) (k : number) : number :=
  fold_left
    (fun k e => match e with CompressionInput value => value | _ => k end)
    events k.

(** The mesh [createPlanet] builds for the Sun while the compression
    amount has its initial value. *)
Definition sunMesh : mesh := newPlanetMesh (Fin 1) getSunData.

(** A descriptor whose rotation period is missing, and one whose rotation
    period is zero. *)
Definition venusNoRotation : Planet.t :=
  Planet.mk "venus" (Fin 108208475) (Fin 6051.8) (Fin 224.701) JUndefined.

Definition venusZeroRotation : Planet.t :=
  Planet.mk "venus" (Fin 108208475) (Fin 6051.8) (Fin 224.701) (JNum (Fin 0)).

(** The Earth, with the values the scenario of the specification gives. *)
Definition earth : Planet.t :=
  Planet.mk "earth" (Fin 149598023) (Fin 6371) (Fin 365.25) (JNum (Fin 24)).

(** ** The rest of the scene: fetched data, orbits, clicks *)

(** The fields of a fetched body the arithmetic of the program reads. *)
Record bodyData : Type := mkBodyData {
  semimajorAxis : jsval;
  meanRadius : jsval;
  sideralOrbit : jsval;
  sideralRotation : jsval
}.

(** A field on which the formatting code calls [toFixed] without a test:
    the call throws a TypeError unless the field holds a number. *)
Definition toFixedReceiver (v : jsval) : option number :=
  match v with
  | JNum n => Some n
  | JUndefined | JNull => None
  end.

(** [formatPlanetData(data, planet)]: the descriptor, or [None] when one of
    the unguarded [toFixed] calls of the function and of [formatPlanetInfo]
    throws. *)
Definition formatPlanetData (data : bodyData) (planet : string)
    : option Planet.t :=
  match toFixedReceiver (semimajorAxis data),
        toFixedReceiver (meanRadius data),
        toFixedReceiver (sideralOrbit data) with
  | Some d, Some r, Some o =>
      Some (Planet.mk planet d r o (sideralRotation data))
  | _, _, _ => None
  end.

Definition planetNames : list string :=
  ["mercury"; "venus"; "earth"; "mars"; "jupiter"; "saturn"; "uranus";
   "neptune"]%string.

(** [Promise.all]: the results in order, or a rejection as soon as one of
    the promises is rejected. *)
Fixpoint promiseAll {A : Type} (ps : list (option A)) : option (list A) :=
  match ps with
  | [] => Some []
  | p :: rest =>
      match p, promiseAll rest with
      | Some v, Some vs => Some (v :: vs)
      | _, _ => None
      end
  end.

(** The function [fetchPlanetPositions] maps over the names, [fetch] being
    the answer of the remote service for a name, [None] when the request
    or its decoding fails. *)
Definition fetchOne (fetch : string -> option bodyData) (planet : string)
    : option Planet.t :=
  match fetch planet with
  | Some data => formatPlanetData data planet
  | None => None
  end.

(** [fetchPlanetPositions()] *)
Definition fetchPlanetPositions (fetch : string -> option bodyData)
    : option (list Planet.t) :=
  match promiseAll (map (fetchOne fetch) planetNames) with
  | Some planetsData => Some (getSunData :: planetsData)
  | None => None
  end.

(** [init()], up to the first frame: the scene of the fetched bodies, or
    nothing when the fetch is rejected. *)
Definition init (fetch : string -> option bodyData) (now0 : Z)
    : option state :=
  match fetchPlanetPositions fetch with
  | Some planets => Some (createSolarSystem planets (initial now0))
  | None => None
  end.

Definition orbitColors : list Z :=
  [0xaaaaaa; 0xffcc00; 0x3399ff; 0xff6633; 0xffcc99; 0xffcc00; 0x66ccff;
   0x3399cc]%Z.

(** The point of index [i] of an orbit line. *)
Definition orbitPoint (distance : number) (i : nat) : vec3 :=
  let angle := (Fin (INR i) / Fin 128 * Fin 2 * PI)%num in
  mkVec3 (distance * cos angle)%num (Fin 0) (distance * sin angle)%num.

(** The line [createOrbit] builds: its colour, [None] for the [undefined]
    an index outside [orbitColors] gives, its 129 points, and the index of
    the mesh its click handler selects. *)
Record orbit : Type := mkOrbit {
  color : option Z;
  points : list vec3;
  planetOfOrbit : nat
}.

(** [createOrbit(distance, index, solarSystemGroup, planetMesh)] *)
Definition createOrbit (distance : number) (index : nat) (planetMesh : nat)
    : orbit :=
  mkOrbit (nth_error orbitColors index)
    (map (orbitPoint distance) (seq 0 129))
    planetMesh.

(** The orbits [createSolarSystem] adds, in order: [createPlanet] calls
    [createOrbit] for every descriptor whose name is not ['sun'], with the
    index of the descriptor in the list. *)
Definition createOrbits (planets : list Planet.t) (st : state) : list orbit :=
  flat_map
    (fun '(index, planet) =>
       if String.eqb (Planet.name planet) "sun" then []
       else [createOrbit (adjustedDistance planet) index
               (List.length (planetMeshes st) + index)])
    (combine (seq 0 (List.length planets)) planets).

(** The pointer position [onCanvasClick] hands to the ray caster. *)
Definition mouse (clientX clientY innerWidth innerHeight : number)
    : number * number :=
  ((clientX / innerWidth * Fin 2 - Fin 1)%num,
   (neg (clientY / innerHeight) * Fin 2 + Fin 1)%num).

(** [onCanvasClick(event)].  The ray caster belongs to the renderer:
    [planetHit] is the mesh of its first intersection with the planets,
    [orbitHit] the mesh the first orbit line it intersects belongs to. *)
Definition onCanvasClick (planetHit orbitHit : option nat) (st : state)
    : state :=
  let st1 := match planetHit with Some i => select i st | None => st end in
  match orbitHit with Some j => select j st1 | None => st1 end.

(** The point [updateCamera] moves the camera towards. *)
Definition targetPosition (sel : mesh) : vec3 :=
  mkVec3 (x (position sel))
         (y (position sel) + Fin 400)%num
         (z (position sel) + Fin 1.5e6)%num.

(** The time factors of successive frames at a constant speed [s], the
    clock reading before the first one being [last]. *)
Fixpoint timeFactors (last : Z) (s : R) (clock : list Z) : list R :=
  match clock with
  | [] => []
  | now :: rest =>
      ((IZR now - IZR last) / 1000 * s) :: timeFactors now s rest
  end.

(** The last reading of a clock, [last] when there is none. *)
Definition lastReading (last : Z) (clock : list Z) : Z :=
  fold_left (fun _ now => now) clock last.

(** The selection the last selecting or closing event of a run leaves. *)
Definition lastSelection (events : list event) (sel : option nat)
    : option nat :=
  fold_left
    (fun sel e =>
       match e with Select i => Some i | Close => None | _ => sel end)
    events sel.

(** The speed the last speed input of a run leaves. *)
Definition lastSpeedInput (events : list event) (s : number) : number :=
  fold_left
    (fun s e => match e with SpeedInput value => value | _ => s end)
    events s.

(** The part of a mesh the frames never write: its geometry, its scale and
    the fields of its [userData] other than the two angles. *)
Definition descriptor (m : mesh) :=
  (geometryRadius m, scale m, name (data m), distance (data m),
   radius (data m), orbitalPeriod (data m), rotationPeriod (data m)).

(** [createStars()]: the coordinates written in [starVertices], three per
    star, [random j] being what the call of rank [j] to [Math.random]
    returns. *)
#[warnings="-abstract-large-number"]
Definition starCount : nat := 10000.

Definition starCoordinate (u : R) : number :=
  ((Fin u - Fin 0.5) * Fin 1e9)%num.

Definition starVertices (random : nat -> R) : list number :=
  flat_map
    (fun star =>
       [starCoordinate (random (3 * star)%nat);
        starCoordinate (random (3 * star + 1)%nat);
        starCoordinate (random (3 * star + 2)%nat)])
    (seq 0 starCount).

(** ** [compressSize] on the doubles

    The same function over the binary64 numbers, with their rounding.
    [Math.pow] is the engine's: ECMAScript leaves its result to the
    implementation, so it is taken as a parameter and the statements say
    which of its values they use. *)

Module Binary64.
Import PrimFloat.
#[local] Open Scope float_scope.
#[local] Set Warnings "-inexact-float".

Definition SUN_RADIUS : float := 696340.

(** [compressSize(input)], with the global [compressionAmount] it reads as
    second argument. *)
Definition compressSize (Math_pow : float -> float -> float)
    (compressionAmount input : float) : float :=
  Math_pow input (1 / compressionAmount) + SUN_RADIUS
  - Math_pow SUN_RADIUS (1 / compressionAmount).



End Binary64.

(** * Properties *)

(** ** Arithmetic of numbers *)

(** Splits the goal along the comparisons of reals a definition branches
    on, and closes the branches that linear arithmetic settles. *)
Ltac real_cases :=
  repeat match goal with
    | |- context [Req_dec_T ?a ?b] => destruct (Req_dec_T a b)
    | |- context [Rlt_dec ?a ?b] => destruct (Rlt_dec a b)
    end;
  try lra.

Section NumberFacts.

Lemma add_zero_r (a : number) : (a + Fin 0)%num = a.
Proof. destruct a; simpl; try reflexivity. f_equal; lra. Qed.




(** The quotient [1 / k] for a compression amount [k >= 1]: a positive
    finite exponent, or zero when [k] is infinite. *)
Lemma exponent_of_amount (k : number) :
  (Fin 1 <= k)%num ->
  exists e : R, (Fin 1 / k)%num = Fin e /\ 0 <= e <= 1.
Proof.
  destruct k as [kk | | |]; simpl; intros H; try contradiction.
  - destruct (Req_dec_T kk 0) as [E | N]; [lra |].
    exists (1 / kk); split; [reflexivity |].
    assert (0 < / kk) by (apply Rinv_0_lt_compat; lra).
    assert (/ kk <= / 1) by (apply Rinv_le_contravar; lra).
    rewrite Rinv_1 in *. lra.
  - exists 0; split; [reflexivity | lra].
Qed.

(** [Math.pow] with exponent zero. *)
Lemma pow_zero_exponent (b : number) : pow b (Fin 0) = Fin 1.
Proof. simpl. destruct (Req_dec_T 0 0); [reflexivity | lra]. Qed.

(** [Math.pow] of a positive finite base. *)
Lemma pow_positive_base (b e : R) :
  0 < b -> e <> 0 -> pow (Fin b) (Fin e) = Fin (Rpower b e).
Proof. intros Hb He; simpl. real_cases. reflexivity. Qed.



End NumberFacts.

(** ** The compression function *)

Section Compression.

(** The shape of [compressSize] once the exponent is known to be finite. *)
Lemma compressSize_unfold (k input : number) (e : R) :
  (Fin 1 / k)%num = Fin e ->
  compressSize k input
  = (pow input (Fin e) + SUN_RADIUS - pow SUN_RADIUS (Fin e))%num.
Proof. intros E. unfold compressSize. rewrite E. reflexivity. Qed.








End Compression.

(** ** The compression function on the doubles *)

Module Binary64Facts.
Import PrimFloat.
#[local] Open Scope float_scope.



End Binary64Facts.

(** ** The per-frame update of one body *)

Section BodyUpdate.

Lemma orbitAngle_updateMesh (tf : number) (m : mesh) :
  orbitAngle (data (updateMesh tf m))
  = (orbitAngle (data m) + angularSpeed (orbitalPeriod (data m)) * tf)%num.
Proof. reflexivity. Qed.

Lemma rotationAngle_updateMesh (tf : number) (m : mesh) :
  rotationAngle (data (updateMesh tf m))
  = (rotationAngle (data m)
     + angularSpeed (ToNumber (rotationPeriod (data m))) * tf)%num.
Proof. reflexivity. Qed.

(** A finite nonzero period has a finite angular speed. *)
Lemma angularSpeed_finite (p : R) :
  p <> 0 -> angularSpeed (Fin p) = Fin (2 * RPI / (p * 60)).
Proof.
  intros Hp. unfold angularSpeed; simpl.
  destruct (Req_dec_T (p * 60) 0); [lra | reflexivity].
Qed.

(** A zero period has an infinite one: the quotient is not an error. *)
Lemma angularSpeed_zero : angularSpeed (Fin 0) = PInf.
Proof.
  pose proof PI_RGT_0 as HPI.
  unfold angularSpeed, inf_signed; simpl. unfold inf_signed. real_cases.
  reflexivity.
Qed.

(** With a time factor of zero, every period but zero and NaN adds zero. *)
Lemma angularSpeed_times_zero (q : number) :
  q <> Fin 0 -> q <> NaN -> (angularSpeed q * Fin 0)%num = Fin 0.
Proof.
  intros H0 HN. pose proof PI_RGT_0 as HPI. unfold angularSpeed.
  destruct q as [p | | |]; try congruence; simpl; unfold inf_signed.
  - assert (p <> 0) by (intros ->; apply H0; reflexivity).
    real_cases. simpl. f_equal; ring.
  - real_cases. simpl. f_equal; ring.
  - real_cases. simpl. f_equal; ring.
Qed.

(** What [updateMesh] leaves alone. *)
Lemma updateMesh_keeps (tf : number) (m : mesh) :
  orbitalPeriod (data (updateMesh tf m)) = orbitalPeriod (data m) /\
  rotationPeriod (data (updateMesh tf m)) = rotationPeriod (data m) /\
  distance (data (updateMesh tf m)) = distance (data m) /\
  radius (data (updateMesh tf m)) = radius (data m) /\
  y (position (updateMesh tf m))
  = (if (orbitalPeriod (data m) === Fin 0)%num then Fin 0
     else y (position m)).
Proof.
  repeat split. simpl.
  destruct (orbitalPeriod (data m) === Fin 0)%num; reflexivity.
Qed.

(** One update of an orbiting body with finite data. *)
Lemma updateMesh_orbiting (m : mesh) (p a d t : R) :
  orbitalPeriod (data m) = Fin p -> p <> 0 ->
  orbitAngle (data m) = Fin a -> distance (data m) = Fin d ->
  let a' := a + 2 * RPI / (p * 60) * t in
  orbitAngle (data (updateMesh (Fin t) m)) = Fin a' /\
  position (updateMesh (Fin t) m) = onOrbit d a' (y (position m)).
Proof.
  intros Hp Hp0 Ha Hd a'.
  assert (Hangle : orbitAngle (data (updateMesh (Fin t) m)) = Fin a').
  { rewrite orbitAngle_updateMesh, Hp, Ha, angularSpeed_finite by assumption.
    reflexivity. }
  split; [exact Hangle |].
  unfold updateMesh. cbn [position].
  fold (angularSpeed (orbitalPeriod (data m))).
  rewrite Hp, Ha, Hd, angularSpeed_finite by assumption. simpl.
  destruct (Req_dec_T p 0); [contradiction | reflexivity].
Qed.

Lemma updates_cons (tf : number) (tfs : list number) (m : mesh) :
  updates (tf :: tfs) m = updates tfs (updateMesh tf m).
Proof. reflexivity. Qed.

(** Any number of updates of an orbiting body with finite data: the angle
    gains the angular speed times the total time factor, and after the last
    update the body is on its orbit at that angle. *)
Lemma updates_orbiting (ts : list R) :
  forall (m : mesh) (p a d : R),
  orbitalPeriod (data m) = Fin p -> p <> 0 ->
  orbitAngle (data m) = Fin a -> distance (data m) = Fin d ->
  let a' := a + 2 * RPI / (p * 60) * total ts in
  orbitAngle (data (updates (map Fin ts) m)) = Fin a' /\
  (ts <> [] ->
   position (updates (map Fin ts) m) = onOrbit d a' (y (position m))).
Proof.
  induction ts as [| t ts IH]; intros m p a d Hp Hp0 Ha Hd.
  - simpl. split; [rewrite Ha; f_equal; ring | congruence].
  - destruct (updateMesh_orbiting m p a d t Hp Hp0 Ha Hd) as [Ha1 Hpos1].
    destruct (updateMesh_keeps (Fin t) m) as (Kp & _ & Kd & _ & _).
    rewrite Hp in Kp. rewrite Hd in Kd.
    destruct (IH (updateMesh (Fin t) m) p _ d Kp Hp0 Ha1 Kd) as [IHa IHpos].
    cbn [map total fold_right]. rewrite updates_cons.
    set (c := 2 * RPI / (p * 60)) in *. fold (total ts).
    assert (E : a + c * t + c * total ts = a + c * (t + total ts)) by ring.
    rewrite E in *. split; [exact IHa |].
    intros _. destruct ts as [| t' ts'].
    + cbn [map updates fold_left total fold_right]. rewrite Hpos1.
      replace (t + 0) with t by ring. reflexivity.
    + rewrite IHpos by congruence. rewrite Hpos1. reflexivity.
Qed.
End BodyUpdate.

(** ** Frames *)

Section Frames.

Lemma planetMeshes_updateCamera (st : state) :
  planetMeshes (updateCamera st) = planetMeshes st.
Proof.
  unfold updateCamera. destruct (selectedPlanet st) as [i |]; [| reflexivity].
  destruct (nth_error (planetMeshes st) i); reflexivity.
Qed.

(** The meshes after a frame: each one updated with the frame's time
    factor. *)
Lemma planetMeshes_animate (now : Z) (st : state) :
  planetMeshes (animate now st)
  = map (updateMesh (timeFactor now st)) (planetMeshes st).
Proof. unfold animate. rewrite planetMeshes_updateCamera. reflexivity. Qed.

Lemma lastTime_animate (now : Z) (st : state) :
  lastTime (animate now st) = now.
Proof.
  unfold animate, updateCamera; simpl.
  destruct (selectedPlanet st) as [i |]; [| reflexivity].
  destruct (nth_error _ i); reflexivity.
Qed.

(** The elapsed time between two clock readings is a finite number. *)
Lemma deltaTime_finite (now : Z) (st : state) :
  deltaTime now st = Fin ((IZR now - IZR (lastTime st)) / 1000).
Proof.
  unfold deltaTime, sub; simpl.
  destruct (Req_dec_T 1000 0); [lra | reflexivity].
Qed.

Lemma frames_snoc (clock : list Z) (now : Z) (st : state) :
  frames (clock ++ [now]) st = animate now (frames clock st).
Proof. unfold frames. rewrite fold_left_app. reflexivity. Qed.

(** C1, as the code has it.  For the central body ([orbitalPeriod] equal to
    0) the position is pinned exactly at the origin after every frame:
    after any number of frames, at least one, whatever the clock readings
    and the state the frames start from.  The quotient by the zero period
    raises nothing: it is an infinite number. *)
Theorem central_body_pinned (clock : list Z) (st : state) (m : mesh) :
  clock <> [] ->
  In m (planetMeshes (frames clock st)) ->
  orbitalPeriod (data m) = Fin 0 ->
  position m = origin.
Proof.
  intros Hne. destruct (exists_last Hne) as (clock' & now & ->).
  rewrite frames_snoc, planetMeshes_animate. intros Hin Hp.
  apply in_map_iff in Hin. destruct Hin as (m0 & <- & _).
  set (tf := timeFactor now (frames clock' st)) in *.
  destruct (updateMesh_keeps tf m0) as (Kp & _).
  rewrite Kp in Hp. unfold updateMesh; cbn [position]. rewrite Hp.
  simpl. destruct (Req_dec_T 0 0); [reflexivity | lra].
Qed.

Lemma central_body_pinned_witness :
  let st := createPlanet getSunData (initial 0) in
  position (updateMesh (timeFactor 16 st) sunMesh) = origin.
Proof.
  intros st.
  apply (central_body_pinned [16%Z] st (updateMesh (timeFactor 16 st) sunMesh)).
  - discriminate.
  - change (frames [16%Z] st) with (animate 16 st).
    rewrite planetMeshes_animate. left. reflexivity.
  - reflexivity.
Defined.

(** C1, as the specification has it, fails: the orbit angle of the Sun is
    updated by a frame.  In the scene of the Sun alone, a frame one second
    after the start, at the initial speed 1, takes it from 0 to
    [+Infinity]. *)
Lemma central_body_angle_updated :
  let st := createPlanet getSunData (initial 0) in
  map (fun m => orbitalPeriod (data m)) (planetMeshes st) = [Fin 0] /\
  map (fun m => orbitAngle (data m)) (planetMeshes st) = [Fin 0] /\
  map (fun m => orbitAngle (data m)) (planetMeshes (animate 1000 st)) = [PInf].
Proof.
  intros st. split; [reflexivity |]. split; [reflexivity |].
  rewrite planetMeshes_animate.
  assert (E : timeFactor 1000 st = Fin 1).
  { unfold timeFactor. rewrite deltaTime_finite. simpl. f_equal. lra. }
  rewrite E.
  cbn [st createPlanet planetMeshes initial app map compressionAmount].
  rewrite orbitAngle_updateMesh.
  cbn [newPlanetMesh data orbitalPeriod orbitAngle getSunData
       Planet.orbitalPeriod].
  rewrite angularSpeed_zero. simpl. unfold inf_signed. real_cases.
  reflexivity.
Qed.

(** C5, as the code has it.  Every body goes through the same accumulation
    [rotationAngle += (2 * PI) / (rotationPeriod * 60) * timeFactor], and
    for a body whose rotation period is a known nonzero number this is the
    finite angle [a + 2 * PI / (p * 60) * t], which the mesh takes as its
    rotation. *)
Theorem rotation_accumulates (m : mesh) (p a t : R) :
  rotationPeriod (data m) = JNum (Fin p) -> p <> 0 ->
  rotationAngle (data m) = Fin a ->
  rotationAngle (data (updateMesh (Fin t) m))
  = Fin (a + 2 * RPI / (p * 60) * t) /\
  rotation_y (updateMesh (Fin t) m) = Fin (a + 2 * RPI / (p * 60) * t).
Proof.
  intros Hp Hp0 Ha.
  assert (E : rotationAngle (data (updateMesh (Fin t) m))
              = Fin (a + 2 * RPI / (p * 60) * t)).
  { rewrite rotationAngle_updateMesh, Hp, Ha. cbn [ToNumber].
    rewrite angularSpeed_finite by assumption. reflexivity. }
  split; [exact E |]. exact E.
Qed.

Lemma rotation_accumulates_witness :
  let m := newPlanetMesh (Fin 1) earth in
  rotationAngle (data (updateMesh (Fin 60) m))
  = Fin (0 + 2 * RPI / (24 * 60) * 60) /\
  rotation_y (updateMesh (Fin 60) m) = Fin (0 + 2 * RPI / (24 * 60) * 60).
Proof.
  intros m. apply (rotation_accumulates m 24 0 60).
  - reflexivity.
  - lra.
  - reflexivity.
Defined.

(** C5, as the specification has it, fails: a body whose rotation period
    is missing, or zero, does not keep its rotation angle.  With a time
    factor of 1 the angle goes from 0 to NaN in the first case and to
    [+Infinity] in the second. *)
Lemma unknown_rotation_not_fixed :
  rotationAngle (data (newPlanetMesh (Fin 1) venusNoRotation)) = Fin 0 /\
  rotationAngle
    (data (updateMesh (Fin 1) (newPlanetMesh (Fin 1) venusNoRotation))) = NaN /\
  rotationAngle (data (newPlanetMesh (Fin 1) venusZeroRotation)) = Fin 0 /\
  rotationAngle
    (data (updateMesh (Fin 1) (newPlanetMesh (Fin 1) venusZeroRotation))) = PInf.
Proof.
  repeat split.
  rewrite rotationAngle_updateMesh. cbn [rotationPeriod data newPlanetMesh
    venusZeroRotation Planet.rotationPeriod ToNumber rotationAngle].
  rewrite angularSpeed_zero. simpl. unfold inf_signed. real_cases.
  reflexivity.
Qed.

(** C6. For an orbiting body (a finite period [p] other than 0), frames
    whose time factors add up to [p * 60] take the orbit angle from [a] to
    [a + 2 * PI] and leave the body at the place of its orbit it had at
    angle [a]; a body that was there before the frames is back at its
    original position. *)
Theorem orbit_full_period (m : mesh) (p a d : R) (ts : list R) :
  orbitalPeriod (data m) = Fin p -> p <> 0 ->
  orbitAngle (data m) = Fin a -> distance (data m) = Fin d ->
  total ts = p * 60 ->
  orbitAngle (data (updates (map Fin ts) m)) = Fin (a + 2 * RPI) /\
  position (updates (map Fin ts) m) = onOrbit d a (y (position m)) /\
  (position m = onOrbit d a (y (position m)) ->
   position (updates (map Fin ts) m) = position m).
Proof.
  intros Hp Hp0 Ha Hd Hsum.
  destruct (updates_orbiting ts m p a d Hp Hp0 Ha Hd) as [Hangle Hpos].
  assert (Hne : ts <> []).
  { intros ->. simpl in Hsum. apply Hp0. lra. }
  assert (E : a + 2 * RPI / (p * 60) * total ts = a + 2 * RPI).
  { rewrite Hsum. field. exact Hp0. }
  rewrite E in *.
  assert (P : position (updates (map Fin ts) m) = onOrbit d a (y (position m))).
  { rewrite (Hpos Hne). unfold onOrbit.
    replace (a + 2 * RPI) with (a + 2 * INR 1 * RPI) by (simpl; ring).
    rewrite cos_period, sin_period. reflexivity. }
  split; [exact Hangle |]. split; [exact P |].
  intros H0. rewrite P. symmetry. exact H0.
Qed.

Lemma orbit_full_period_witness :
  let m := newPlanetMesh (Fin 1) earth in
  let ts := [365.25 * 20; 365.25 * 40] in
  orbitAngle (data (updates (map Fin ts) m)) = Fin (0 + 2 * RPI) /\
  position (updates (map Fin ts) m)
  = onOrbit ((149598023 / 1000 + 696340) * 10) 0 (y (position m)) /\
  (position m = onOrbit ((149598023 / 1000 + 696340) * 10) 0 (y (position m)) ->
   position (updates (map Fin ts) m) = position m).
Proof.
  intros m ts.
  apply (orbit_full_period m 365.25 0 _ ts).
  - reflexivity.
  - lra.
  - reflexivity.
  - simpl. unfold adjustedDistance; simpl.
    destruct (Req_dec_T 1000 0); [lra | reflexivity].
  - simpl. lra.
Defined.

(** A new mesh is on its orbit at angle 0. *)
Lemma newPlanetMesh_onOrbit (k : number) (planet : Planet.t) (d : R) :
  adjustedDistance planet = Fin d ->
  position (newPlanetMesh k planet) = onOrbit d 0 (Fin 0).
Proof.
  intros E. unfold newPlanetMesh, onOrbit; cbn [position]. rewrite E.
  rewrite cos_0, sin_0. f_equal; f_equal; ring.
Qed.

(** With the speed at 0 the time factor of a frame is 0. *)
Lemma timeFactor_zero_speed (now : Z) (st : state) :
  orbitalSpeed st = Fin 0 -> timeFactor now st = Fin 0.
Proof.
  intros Hs. unfold timeFactor. rewrite deltaTime_finite, Hs. simpl.
  f_equal; ring.
Qed.

(** C9, as the code has it.  In a frame executed while the speed is 0 the
    time factor is 0 whatever the clock reading, and the frame leaves the
    orbit angle of every body whose orbital period is neither 0 nor NaN,
    and the rotation angle of every body whose rotation period is neither
    0 nor NaN (nor missing), as they were. *)
Theorem frozen_frame (now : Z) (st : state) :
  orbitalSpeed st = Fin 0 ->
  timeFactor now st = Fin 0 /\
  forall (i : nat) (m : mesh),
    nth_error (planetMeshes st) i = Some m ->
    exists m' : mesh,
      nth_error (planetMeshes (animate now st)) i = Some m' /\
      (orbitalPeriod (data m) <> Fin 0 -> orbitalPeriod (data m) <> NaN ->
       orbitAngle (data m') = orbitAngle (data m)) /\
      (ToNumber (rotationPeriod (data m)) <> Fin 0 ->
       ToNumber (rotationPeriod (data m)) <> NaN ->
       rotationAngle (data m') = rotationAngle (data m)).
Proof.
  intros Hs. pose proof (timeFactor_zero_speed now st Hs) as Htf.
  split; [exact Htf |].
  intros i m Hi. exists (updateMesh (Fin 0) m).
  rewrite planetMeshes_animate, Htf. split; [| split].
  - apply map_nth_error. exact Hi.
  - intros H0 HN. rewrite orbitAngle_updateMesh.
    rewrite angularSpeed_times_zero by assumption. apply add_zero_r.
  - intros H0 HN. rewrite rotationAngle_updateMesh.
    rewrite angularSpeed_times_zero by assumption. apply add_zero_r.
Qed.

Lemma frozen_frame_witness :
  let st := createPlanet earth (updateOrbitalSpeed (Fin 0) (initial 0)) in
  timeFactor 5000 st = Fin 0 /\
  forall (i : nat) (m : mesh),
    nth_error (planetMeshes st) i = Some m ->
    exists m' : mesh,
      nth_error (planetMeshes (animate 5000 st)) i = Some m' /\
      (orbitalPeriod (data m) <> Fin 0 -> orbitalPeriod (data m) <> NaN ->
       orbitAngle (data m') = orbitAngle (data m)) /\
      (ToNumber (rotationPeriod (data m)) <> Fin 0 ->
       ToNumber (rotationPeriod (data m)) <> NaN ->
       rotationAngle (data m') = rotationAngle (data m)).
Proof.
  intros st. apply (frozen_frame 5000 st). reflexivity.
Defined.

(** C9, as the specification has it, fails: with the speed at 0 the first
    frame takes the orbit angle of the Sun from 0 to NaN. *)
Lemma frozen_frame_changes_sun :
  let st := createPlanet getSunData (updateOrbitalSpeed (Fin 0) (initial 0)) in
  orbitalSpeed st = Fin 0 /\
  map (fun m => orbitAngle (data m)) (planetMeshes st) = [Fin 0] /\
  map (fun m => orbitAngle (data m)) (planetMeshes (animate 16 st)) = [NaN].
Proof.
  intros st. split; [reflexivity |]. split; [reflexivity |].
  rewrite planetMeshes_animate.
  rewrite (timeFactor_zero_speed 16 st eq_refl).
  cbn [st createPlanet planetMeshes updateOrbitalSpeed initial app map
       compressionAmount].
  rewrite orbitAngle_updateMesh.
  cbn [newPlanetMesh data orbitalPeriod orbitAngle getSunData
       Planet.orbitalPeriod].
  rewrite angularSpeed_zero. simpl. unfold inf_signed. real_cases.
  reflexivity.
Qed.

(** C2, as the code has it.  When the clock reading of a frame is earlier
    than the previous one the elapsed time is not clamped: the time factor
    is the negative difference, in seconds, times the speed, hence
    negative for a positive speed; the frame still records the new
    reading in [lastTime]. *)
Theorem clock_regression_not_clamped (now : Z) (st : state) (s : R) :
  (now < lastTime st)%Z -> orbitalSpeed st = Fin s ->
  timeFactor now st = Fin ((IZR now - IZR (lastTime st)) / 1000 * s) /\
  (0 < s -> (timeFactor now st < Fin 0)%num) /\
  lastTime (animate now st) = now.
Proof.
  intros Hlt Hs.
  assert (E : timeFactor now st
              = Fin ((IZR now - IZR (lastTime st)) / 1000 * s)).
  { unfold timeFactor. rewrite deltaTime_finite, Hs. reflexivity. }
  split; [exact E |]. split; [| apply lastTime_animate].
  intros Hpos. rewrite E. simpl. apply IZR_lt in Hlt. nra.
Qed.

Lemma clock_regression_not_clamped_witness :
  timeFactor 1000 (initial 2000) = Fin ((1000 - 2000) / 1000 * 1) /\
  (0 < 1 -> (timeFactor 1000 (initial 2000) < Fin 0)%num) /\
  lastTime (animate 1000 (initial 2000)) = 1000%Z.
Proof.
  apply (clock_regression_not_clamped 1000 (initial 2000) 1).
  - simpl. lia.
  - reflexivity.
Defined.

(** C2, as the specification has it, fails: a clock that goes back by a
    second at speed 1 gives a time factor of -1, not 0. *)
Lemma clock_regression_negative :
  (1000 < lastTime (initial 2000))%Z /\
  timeFactor 1000 (initial 2000) = Fin (-1) /\
  timeFactor 1000 (initial 2000) <> Fin 0.
Proof.
  assert (E : timeFactor 1000 (initial 2000) = Fin (-1)).
  { unfold timeFactor. rewrite deltaTime_finite. simpl. f_equal. lra. }
  split; [simpl; lia |]. split; [exact E |].
  rewrite E. intros H. injection H. lra.
Qed.

End Frames.

(** ** The compression input and the scene *)

Section CompressionInput.

Lemma compressionAmount_updateCamera (st : state) :
  compressionAmount (updateCamera st) = compressionAmount st.
Proof.
  unfold updateCamera. destruct (selectedPlanet st) as [i |]; [| reflexivity].
  destruct (nth_error (planetMeshes st) i); reflexivity.
Qed.

(** One event: the compression amount is the value of the event when it is
    a compression input, and is untouched otherwise. *)
Lemma compressionAmount_handle (e : event) (st : state) :
  compressionAmount (handle e st)
  = match e with
    | CompressionInput value => value
    | _ => compressionAmount st
    end.
Proof.
  destruct e; try reflexivity.
  simpl. unfold animate. rewrite compressionAmount_updateCamera. reflexivity.
Qed.

(** C7, as the code has it.  The compression amount is written by the
    compression input handler alone, which stores the value it receives as
    it is: after any sequence of events the compression amount is the value
    of the last compression input, or its previous value when there was
    none. *)
Theorem compressionAmount_run (events : list event) (st : state) :
  compressionAmount (run events st)
  = lastCompressionInput events (compressionAmount st).
Proof.
  revert st. induction events as [| e events IH]; intros st.
  - reflexivity.
  - unfold run, lastCompressionInput in *. simpl.
    rewrite IH, compressionAmount_handle. reflexivity.
Qed.

(** C7, as the specification has it, fails: the handler clamps nothing.
    An input of 0.5 leaves the compression amount at 0.5, below 1, and an
    input that parses to NaN leaves it at NaN. *)
Lemma compression_input_not_clamped :
  compressionAmount (updateCompressionAmount (Fin 0.5) (initial 0)) = Fin 0.5 /\
  ~ (Fin 1 <= compressionAmount
                (updateCompressionAmount (Fin 0.5) (initial 0)))%num /\
  compressionAmount (updateCompressionAmount NaN (initial 0)) = NaN.
Proof.
  split; [reflexivity |]. split; [simpl; lra | reflexivity].
Qed.

(** C8, as the code has it.  [createPlanet] compresses the radius of the
    body and nothing else: the sphere has radius
    [compressSize(planetRadius)], while the distance kept in [userData]
    and the initial position are the linear [adjustedDistance], whatever
    the compression amount; and a later compression input changes neither
    the distances nor the positions. *)
Theorem compression_on_radius_only (k : number) (planet : Planet.t)
    (value : number) (st : state) :
  geometryRadius (newPlanetMesh k planet)
  = compressSize k (planetRadius planet) /\
  distance (data (newPlanetMesh k planet)) = adjustedDistance planet /\
  position (newPlanetMesh k planet)
  = mkVec3 (adjustedDistance planet) (Fin 0) (Fin 0) /\
  map (fun m => (distance (data m), position m))
    (planetMeshes (updateCompressionAmount value st))
  = map (fun m => (distance (data m), position m)) (planetMeshes st).
Proof.
  repeat split. simpl. rewrite map_map. reflexivity.
Qed.

Lemma sqrt_below (u b : R) : 0 <= u -> 0 < b -> u < b * b -> sqrt u < b.
Proof.
  intros Hu Hb Hlt. rewrite <- (sqrt_square b) by lra.
  apply sqrt_lt_1; nra.
Qed.

(** The compression with amount 2 of a positive number is its square root
    plus less than the reference scale. *)
Lemma compressSize_two_below (u b : R) :
  0 < u -> 0 < b -> u < b * b ->
  exists c : R, compressSize (Fin 2) (Fin u) = Fin c /\ c < b + 696340.
Proof.
  intros Hu Hb Hlt. unfold compressSize, SUN_RADIUS.
  replace (Fin 1 / Fin 2)%num with (Fin (/ 2))
    by (simpl; real_cases; f_equal; lra).
  rewrite !pow_positive_base by lra. rewrite !Rpower_sqrt by lra.
  unfold sub; simpl. eexists; split; [reflexivity |].
  pose proof (sqrt_below u b (Rlt_le _ _ Hu) Hb Hlt).
  assert (0 < sqrt 696340) by (apply sqrt_lt_R0; lra).
  lra.
Qed.

(** C8, as the specification has it, fails: the distance of a body is not
    a compressed length.  With the compression amount at 2 the distance
    [createPlanet] gives the Earth is neither the compression of its
    adjusted distance nor that of its raw distance. *)
Lemma distance_not_compressed :
  distance (data (newPlanetMesh (Fin 2) earth))
  <> compressSize (Fin 2) (adjustedDistance earth) /\
  distance (data (newPlanetMesh (Fin 2) earth))
  <> compressSize (Fin 2) (Planet.distance earth).
Proof.
  assert (D : distance (data (newPlanetMesh (Fin 2) earth))
              = Fin ((149598023 / 1000 + 696340) * 10)).
  { simpl. unfold adjustedDistance; simpl.
    destruct (Req_dec_T 1000 0); [lra | reflexivity]. }
  assert (A : adjustedDistance earth = Fin ((149598023 / 1000 + 696340) * 10)).
  { exact D. }
  rewrite D, A. cbn [earth Planet.distance]. split.
  - destruct (compressSize_two_below
                ((149598023 / 1000 + 696340) * 10) 3000) as (c & -> & Hc);
      try lra.
    intros H. injection H. lra.
  - destruct (compressSize_two_below 149598023 13000) as (c & -> & Hc);
      try lra.
    intros H. injection H. lra.
Qed.

End CompressionInput.

(** * Further properties of the code *)

(** ** [compressSize] beyond the identity, the order and the fixed point *)

Section CompressionShape.

(** Above 1, a power with an exponent in [[0, 1]] grows, and grows no
    faster than its base. *)
Lemma Rpower_gap (e u v : R) :
  0 <= e <= 1 -> 1 <= u -> u <= v ->
  0 <= Rpower v e - Rpower u e <= v - u.
Proof.
  intros He Hu Huv.
  assert (Hmono : Rpower u e <= Rpower v e) by (apply Rle_Rpower_l; lra).
  set (t := v / u).
  assert (Ht : 1 <= t).
  { unfold t. apply Rmult_le_reg_r with u; [lra |].
    unfold Rdiv. rewrite Rmult_assoc, Rinv_l by lra. lra. }
  assert (Hv : v = u * t) by (unfold t; field; lra).
  assert (Hue : 1 <= Rpower u e <= u).
  { split.
    - rewrite <- (Rpower_O u) by lra. apply Rle_Rpower; lra.
    - rewrite <- (Rpower_1 u) at 2 by lra. apply Rle_Rpower; lra. }
  assert (Hte : 1 <= Rpower t e <= t).
  { split.
    - rewrite <- (Rpower_O t) by lra. apply Rle_Rpower; lra.
    - rewrite <- (Rpower_1 t) at 2 by lra. apply Rle_Rpower; lra. }
  assert (Hprod : Rpower v e = Rpower u e * Rpower t e).
  { rewrite Hv. symmetry. apply Rpower_mult_distr; lra. }
  split; [lra |]. rewrite Hprod, Hv. nra.
Qed.

(** For a compression amount [k >= 1] and a size of at least 1 the
    compressed size is finite, with an exponent in [[0, 1]]. *)
Lemma compressSize_finite (k : number) (r : R) :
  (Fin 1 <= k)%num -> 1 <= r ->
  exists e : R,
    0 <= e <= 1 /\
    compressSize k (Fin r) = Fin (Rpower r e + 696340 - Rpower 696340 e).
Proof.
  intros Hk Hr.
  destruct (exponent_of_amount k Hk) as (e & E & He).
  exists e. split; [exact He |].
  rewrite (compressSize_unfold k _ e E). unfold SUN_RADIUS.
  destruct (Req_dec_T e 0) as [Z0 | NZ].
  - subst e. rewrite !pow_zero_exponent, !Rpower_O by lra. reflexivity.
  - rewrite !pow_positive_base by lra. reflexivity.
Qed.

(** X1. For a compression amount [k >= 1], [compressSize] moves a size of
    at least 1 towards the reference scale and never past it: a size
    between 1 and [SUN_RADIUS] is mapped between itself and [SUN_RADIUS],
    a size above [SUN_RADIUS] between [SUN_RADIUS] and itself. *)
Theorem compressSize_towards_reference (k : number) (r : R) :
  (Fin 1 <= k)%num -> 1 <= r ->
  exists c : R,
    compressSize k (Fin r) = Fin c /\
    (r <= 696340 -> r <= c <= 696340) /\
    (696340 <= r -> 696340 <= c <= r).
Proof.
  intros Hk Hr.
  destruct (compressSize_finite k r Hk Hr) as (e & He & ->).
  eexists; split; [reflexivity |]. split; intros H.
  - pose proof (Rpower_gap e r 696340 He Hr H). lra.
  - assert (H1 : 1 <= 696340) by lra.
    pose proof (Rpower_gap e 696340 r He H1 H). lra.
Qed.

Lemma compressSize_towards_reference_witness :
  exists c : R,
    compressSize (Fin 3) (Fin 12742) = Fin c /\
    (12742 <= 696340 -> 12742 <= c <= 696340) /\
    (696340 <= 12742 -> 696340 <= c <= 12742).
Proof.
  apply (compressSize_towards_reference (Fin 3) 12742); simpl; lra.
Defined.

(** An exponent strictly between 0 and 1 is not an integer. *)
Lemma is_integer_fraction (y : R) : 0 < y < 1 -> is_integer y = false.
Proof.
  intros Hy. unfold is_integer.
  assert (E : 0%Z = Int_part y) by (apply Int_part_spec; simpl; lra).
  rewrite <- E. destruct (Req_dec_T (IZR 0) y); [lra | reflexivity].
Qed.

(** X2. A negative input has no compressed size as soon as the compression
    amount is a finite number above 1: [Math.pow] of a negative base with
    the fractional exponent [1 / k] is NaN, and so is the result. *)
Theorem compressSize_negative_input (k r : R) :
  1 < k -> r < 0 -> compressSize (Fin k) (Fin r) = NaN.
Proof.
  intros Hk Hr. unfold compressSize.
  assert (Hinv : 0 < / k < 1).
  { split; [apply Rinv_0_lt_compat; lra |].
    rewrite <- Rinv_1. apply Rinv_lt_contravar; lra. }
  replace (Fin 1 / Fin k)%num with (Fin (/ k))
    by (simpl; real_cases; f_equal; lra).
  assert (P : pow (Fin r) (Fin (/ k)) = NaN).
  { simpl. rewrite (is_integer_fraction _ Hinv). real_cases. reflexivity. }
  rewrite P. reflexivity.
Qed.

Lemma compressSize_negative_input_witness :
  compressSize (Fin 2) (Fin (-4)) = NaN.
Proof. apply (compressSize_negative_input 2 (-4)); lra. Defined.

End CompressionShape.

(** ** The compression input and the scale of the meshes *)

Section Rescaling.

(** X3. A compression input that [parseFloat] cannot read poisons the
    scene: with the amount NaN every compressed size is NaN, and the
    handler gives the scale [(NaN, NaN, NaN)] to every mesh, whatever its
    radius. *)
Theorem updateCompressionAmount_NaN (input : number) (st : state) (m' : mesh) :
  compressSize NaN input = NaN /\
  (In m' (planetMeshes (updateCompressionAmount NaN st)) ->
   scale m' = mkVec3 NaN NaN NaN).
Proof.
  assert (C : forall a : number, compressSize NaN a = NaN).
  { intros a. unfold compressSize. simpl. destruct a; reflexivity. }
  split; [apply C |].
  simpl. intros Hin. apply in_map_iff in Hin. destruct Hin as (m & <- & _).
  unfold rescale; cbn [scale]. rewrite C. reflexivity.
Qed.

(** X4. A compression input overwrites what the previous one did: two
    inputs in a row leave the state the second one alone would leave. *)
Theorem updateCompressionAmount_overwrites (v1 v2 : number) (st : state) :
  updateCompressionAmount v2 (updateCompressionAmount v1 st)
  = updateCompressionAmount v2 st.
Proof.
  unfold updateCompressionAmount; simpl. f_equal.
  rewrite map_map. apply map_ext. intros m. reflexivity.
Qed.






End Rescaling.

(** ** Fetching the bodies and building the scene *)

Section SceneBuilding.

Lemma promiseAll_Some {A B : Type} (f : A -> option B) (l : list A)
    (vs : list B) :
  promiseAll (map f l) = Some vs <-> Forall2 (fun a v => f a = Some v) l vs.
Proof.
  revert vs. induction l as [| a l IH]; intros vs; simpl.
  - split.
    + intros H. injection H as <-. constructor.
    + intros H. inversion H. reflexivity.
  - split.
    + destruct (f a) as [v |] eqn:Ea; [| discriminate].
      destruct (promiseAll (map f l)) as [vs' |] eqn:El; [| discriminate].
      intros H. injection H as <-. constructor; [exact Ea |].
      apply IH. reflexivity.
    + intros H. inversion H as [| a' v l' vs' Ha Hl]; subst.
      rewrite Ha. apply IH in Hl. rewrite Hl. reflexivity.
Qed.

Lemma promiseAll_None {A B : Type} (f : A -> option B) (l : list A) :
  promiseAll (map f l) = None <-> exists a : A, In a l /\ f a = None.
Proof.
  induction l as [| a l IH]; simpl.
  - split; [discriminate | intros (a & [] & _)].
  - destruct (f a) as [v |] eqn:Ea.
    + destruct (promiseAll (map f l)) as [vs |] eqn:El.
      * split; [discriminate |].
        intros (b & [<- | Hb] & Hn); [congruence |].
        assert (C : Some vs = None) by (apply IH; eauto).
        discriminate C.
      * split; [| reflexivity]. intros _.
        destruct IH as [IH _]. destruct (IH eq_refl) as (b & Hb & Hn).
        eauto.
    + split; [| reflexivity]. intros _. exists a. auto.
Qed.


(** X7. When [fetchPlanetPositions] succeeds its result is the Sun
    followed by one descriptor per name of [planetNames], in that order,
    each carrying the three numbers the service gave for that name and, as
    it is, whatever the service gave for the rotation period, missing or
    not. *)
Theorem fetchPlanetPositions_success (fetch : string -> option bodyData)
    (planets : list Planet.t) :
  fetchPlanetPositions fetch = Some planets ->
  exists planetsData : list Planet.t,
    planets = getSunData :: planetsData /\
    map Planet.name planetsData = planetNames /\
    Forall2
      (fun planet p =>
         exists data : bodyData,
           fetch planet = Some data /\
           semimajorAxis data = JNum (Planet.distance p) /\
           meanRadius data = JNum (Planet.radius p) /\
           sideralOrbit data = JNum (Planet.orbitalPeriod p) /\
           sideralRotation data = Planet.rotationPeriod p)
      planetNames planetsData.
Proof.
  unfold fetchPlanetPositions.
  destruct (promiseAll (map (fetchOne fetch) planetNames))
    as [planetsData |] eqn:E; [| discriminate].
  intros H. injection H as <-. exists planetsData.
  apply promiseAll_Some in E. split; [reflexivity |].
  assert (G : forall planet p, fetchOne fetch planet = Some p ->
              Planet.name p = planet /\
              exists data : bodyData,
                fetch planet = Some data /\
                semimajorAxis data = JNum (Planet.distance p) /\
                meanRadius data = JNum (Planet.radius p) /\
                sideralOrbit data = JNum (Planet.orbitalPeriod p) /\
                sideralRotation data = Planet.rotationPeriod p).
  { intros planet p. unfold fetchOne, formatPlanetData.
    destruct (fetch planet) as [data |]; [| discriminate].
    destruct (semimajorAxis data) as [| | d] eqn:Ed; try discriminate.
    destruct (meanRadius data) as [| | r] eqn:Er; try discriminate.
    destruct (sideralOrbit data) as [| | o] eqn:Eo; try discriminate.
    simpl. intros H. injection H as <-. split; [reflexivity |].
    exists data. simpl. auto. }
  clear - E G. induction E as [| planet p names ps Hp _ IH]; simpl.
  - split; constructor.
  - destruct IH as [IHn IHf]. destruct (G planet p Hp) as [En Hd].
    split; [rewrite En, IHn; reflexivity | constructor; assumption].
Qed.

Lemma fetchPlanetPositions_success_witness :
  let data := mkBodyData (JNum (Fin 1)) (JNum (Fin 2)) (JNum (Fin 3)) JNull in
  exists planetsData : list Planet.t,
    getSunData :: map (fun planet => Planet.mk planet (Fin 1) (Fin 2) (Fin 3) JNull)
                      planetNames
    = getSunData :: planetsData /\
    map Planet.name planetsData = planetNames /\
    Forall2
      (fun planet p =>
         exists data' : bodyData,
           Some data = Some data' /\
           semimajorAxis data' = JNum (Planet.distance p) /\
           meanRadius data' = JNum (Planet.radius p) /\
           sideralOrbit data' = JNum (Planet.orbitalPeriod p) /\
           sideralRotation data' = Planet.rotationPeriod p)
      planetNames planetsData.
Proof.
  intros data.
  apply (fetchPlanetPositions_success (fun _ => Some data)).
  reflexivity.
Defined.

(** X8. The scene is built only when every body is complete: as far as
    the fields of [bodyData] go, [init] produces no scene exactly when,
    for one of the names, the request fails or the answer lacks a number
    for the semi-major axis, the mean radius or the orbital period.  A
    missing rotation period is no such failure. *)
Theorem init_failure (fetch : string -> option bodyData) (now0 : Z) :
  init fetch now0 = None <->
  exists planet : string,
    In planet planetNames /\
    (fetch planet = None \/
     exists data : bodyData,
       fetch planet = Some data /\
       (toFixedReceiver (semimajorAxis data) = None \/
        toFixedReceiver (meanRadius data) = None \/
        toFixedReceiver (sideralOrbit data) = None)).
Proof.
  assert (G : forall planet, fetchOne fetch planet = None <->
              (fetch planet = None \/
               exists data : bodyData,
                 fetch planet = Some data /\
                 (toFixedReceiver (semimajorAxis data) = None \/
                  toFixedReceiver (meanRadius data) = None \/
                  toFixedReceiver (sideralOrbit data) = None))).
  { intros planet. unfold fetchOne, formatPlanetData.
    destruct (fetch planet) as [data |].
    - destruct (toFixedReceiver (semimajorAxis data)) eqn:Ea,
               (toFixedReceiver (meanRadius data)) eqn:Eb,
               (toFixedReceiver (sideralOrbit data)) eqn:Ec;
        (split;
         [ intros H;
           first [ discriminate H
                 | right; exists data; split; [reflexivity | auto] ]
         | intros [H | (data' & H & Hf)];
           first [ discriminate H
                 | reflexivity
                 | injection H as <-;
                   destruct Hf as [Hf | [Hf | Hf]]; congruence ] ]).
    - split; auto. }
  unfold init, fetchPlanetPositions.
  destruct (promiseAll (map (fetchOne fetch) planetNames)) as [ps |] eqn:E.
  - split; [discriminate |]. intros (planet & Hin & Hf).
    assert (C : promiseAll (map (fetchOne fetch) planetNames) = None).
    { apply promiseAll_None. exists planet. split; [exact Hin |].
      apply G. exact Hf. }
    congruence.
  - split; [| reflexivity]. intros _.
    apply promiseAll_None in E. destruct E as (planet & Hin & Hf).
    exists planet. split; [exact Hin | apply G; exact Hf].
Qed.

(** The globals [createPlanet] leaves alone. *)
Lemma createPlanet_keeps (planet : Planet.t) (st : state) :
  compressionAmount (createPlanet planet st) = compressionAmount st /\
  orbitalSpeed (createPlanet planet st) = orbitalSpeed st /\
  selectedPlanet (createPlanet planet st) = selectedPlanet st /\
  lastTime (createPlanet planet st) = lastTime st /\
  cameraPosition (createPlanet planet st) = cameraPosition st.
Proof. repeat split. Qed.

(** X9. [createSolarSystem] appends one mesh per descriptor, in the order
    of the descriptors, all built under the compression amount of the
    moment; the meshes already there and the other globals are kept. *)
Theorem createSolarSystem_meshes (planets : list Planet.t) (st : state) :
  planetMeshes (createSolarSystem planets st)
  = planetMeshes st ++ map (newPlanetMesh (compressionAmount st)) planets /\
  compressionAmount (createSolarSystem planets st) = compressionAmount st /\
  orbitalSpeed (createSolarSystem planets st) = orbitalSpeed st /\
  selectedPlanet (createSolarSystem planets st) = selectedPlanet st /\
  lastTime (createSolarSystem planets st) = lastTime st /\
  cameraPosition (createSolarSystem planets st) = cameraPosition st.
Proof.
  revert st. induction planets as [| planet planets IH]; intros st.
  - simpl. rewrite app_nil_r. repeat split.
  - change (createSolarSystem (planet :: planets) st)
      with (createSolarSystem planets (createPlanet planet st)).
    destruct (IH (createPlanet planet st)) as (Hm & Hk & Hs & Hsel & Hl & Hc).
    rewrite Hm, Hk, Hs, Hsel, Hl, Hc. simpl.
    rewrite <- app_assoc. repeat split.
Qed.

(** The colour and the mesh of the orbits, without their points. *)
Lemma createOrbits_colors (planets : list Planet.t) (st : state) :
  map (fun o => (planetOfOrbit o, color o)) (createOrbits planets st)
  = flat_map
      (fun '(index, planet) =>
         if String.eqb (Planet.name planet) "sun" then []
         else [((List.length (planetMeshes st) + index)%nat,
                nth_error orbitColors index)])
      (combine (seq 0 (List.length planets)) planets).
Proof.
  unfold createOrbits.
  induction (combine (seq 0 (List.length planets)) planets)
    as [| [index planet] l IH]; [reflexivity |].
  cbn [flat_map]. rewrite map_app, IH. f_equal.
  destruct (String.eqb (Planet.name planet) "sun"); reflexivity.
Qed.

(** X10. In the scene of the fetched bodies every planet has an orbit line
    and the Sun has none; the colour of a line is looked up with the index
    of the body in the whole list, the Sun included, so that the first
    colour of [orbitColors] is never used and the last planet, at index 8,
    finds no colour. *)
Theorem init_orbit_colors (fetch : string -> option bodyData)
    (planets : list Planet.t) (now0 : Z) :
  fetchPlanetPositions fetch = Some planets ->
  map (fun o => (planetOfOrbit o, color o))
      (createOrbits planets (initial now0))
  = [(1%nat, Some 0xffcc00%Z); (2%nat, Some 0x3399ff%Z);
     (3%nat, Some 0xff6633%Z); (4%nat, Some 0xffcc99%Z);
     (5%nat, Some 0xffcc00%Z); (6%nat, Some 0x66ccff%Z);
     (7%nat, Some 0x3399cc%Z); (8%nat, None)].
Proof.
  unfold fetchPlanetPositions.
  destruct (promiseAll (map (fetchOne fetch) planetNames))
    as [planetsData |] eqn:E; [| discriminate].
  intros H. injection H as <-.
  apply promiseAll_Some in E.
  assert (N : map Planet.name planetsData = planetNames).
  { assert (G : forall planet p, fetchOne fetch planet = Some p ->
                Planet.name p = planet).
    { intros planet p. unfold fetchOne, formatPlanetData.
      destruct (fetch planet) as [data |]; [| discriminate].
      destruct (toFixedReceiver (semimajorAxis data)); [| discriminate].
      destruct (toFixedReceiver (meanRadius data)); [| discriminate].
      destruct (toFixedReceiver (sideralOrbit data)); [| discriminate].
      intros H. injection H as <-. reflexivity. }
    clear - E G. induction E as [| planet p names ps Hp _ IH]; simpl.
    - reflexivity.
    - rewrite (G planet p Hp), IH. reflexivity. }
  rewrite createOrbits_colors. unfold planetNames in N.
  do 9 (destruct planetsData as [| ? planetsData]; try discriminate N).
  injection N as N1 N2 N3 N4 N5 N6 N7 N8.
  cbn [List.length seq combine flat_map getSunData Planet.name
       initial planetMeshes].
  rewrite N1, N2, N3, N4, N5, N6, N7, N8. reflexivity.
Qed.

Lemma init_orbit_colors_witness :
  let data := mkBodyData (JNum (Fin 1)) (JNum (Fin 2)) (JNum (Fin 3)) JNull in
  map (fun o => (planetOfOrbit o, color o))
      (createOrbits
         (getSunData
          :: map (fun planet => Planet.mk planet (Fin 1) (Fin 2) (Fin 3) JNull)
                 planetNames)
         (initial 0))
  = [(1%nat, Some 0xffcc00%Z); (2%nat, Some 0x3399ff%Z);
     (3%nat, Some 0xff6633%Z); (4%nat, Some 0xffcc99%Z);
     (5%nat, Some 0xffcc00%Z); (6%nat, Some 0x66ccff%Z);
     (7%nat, Some 0x3399cc%Z); (8%nat, None)].
Proof.
  intros data.
  apply (init_orbit_colors (fun _ => Some data)). reflexivity.
Defined.

(** A point of an orbit line at a finite distance. *)
Lemma orbitPoint_finite (d : R) (i : nat) :
  orbitPoint (Fin d) i
  = mkVec3 (Fin (d * Rcos (INR i / 128 * 2 * RPI))) (Fin 0)
           (Fin (d * Rsin (INR i / 128 * 2 * RPI))).
Proof.
  unfold orbitPoint. simpl.
  destruct (Req_dec_T 128 0); [lra | reflexivity].
Qed.

(** X11. The line [createOrbit] draws at a finite distance [d] has 129
    points, all in the horizontal plane and on the circle of radius [d]
    about the origin, and it is closed: its first and its last point are
    both the point [(d, 0, 0)], where [createPlanet] puts the body. *)
Theorem createOrbit_points (d : R) (index planetMesh : nat) :
  let o := createOrbit (Fin d) index planetMesh in
  List.length (points o) = 129%nat /\
  (forall p : vec3, In p (points o) ->
     y p = Fin 0 /\
     exists px pz : R,
       x p = Fin px /\ z p = Fin pz /\ px * px + pz * pz = d * d) /\
  nth_error (points o) 0 = Some (mkVec3 (Fin d) (Fin 0) (Fin 0)) /\
  nth_error (points o) 128 = Some (mkVec3 (Fin d) (Fin 0) (Fin 0)).
Proof.
  cbn [createOrbit points]. split; [| split; [| split]].
  - rewrite length_map, length_seq. reflexivity.
  - intros p Hin. apply in_map_iff in Hin. destruct Hin as (i & <- & _).
    rewrite orbitPoint_finite. split; [reflexivity |].
    do 2 eexists. split; [reflexivity |]. split; [reflexivity |].
    pose proof (sin2_cos2 (INR i / 128 * 2 * RPI)) as H.
    unfold Rsqr in H. nra.
  - rewrite (map_nth_error _ 0 (seq 0 129) (d := 0%nat)) by reflexivity.
    rewrite orbitPoint_finite. f_equal.
    replace (INR 0 / 128 * 2 * RPI) with 0 by (simpl; lra).
    rewrite cos_0, sin_0. f_equal; f_equal; lra.
  - rewrite (map_nth_error _ 128 (seq 0 129) (d := 128%nat)) by reflexivity.
    rewrite orbitPoint_finite. f_equal.
    assert (E : INR 128 = 128) by (rewrite INR_IZR_INZ; reflexivity).
    rewrite E.
    replace (128 / 128 * 2 * RPI) with (2 * RPI) by field.
    rewrite cos_2PI, sin_2PI. f_equal; f_equal; lra.
Qed.

End SceneBuilding.

(** ** Runs of frames *)

Section FrameRuns.

(** What a frame leaves alone among the globals. *)
Lemma animate_keeps (now : Z) (st : state) :
  compressionAmount (animate now st) = compressionAmount st /\
  orbitalSpeed (animate now st) = orbitalSpeed st /\
  selectedPlanet (animate now st) = selectedPlanet st.
Proof.
  unfold animate, updateCamera; simpl.
  destruct (selectedPlanet st) as [i |]; [| repeat split].
  destruct (nth_error _ i); repeat split.
Qed.

Lemma frames_cons (now : Z) (clock : list Z) (st : state) :
  frames (now :: clock) st = frames clock (animate now st).
Proof. reflexivity. Qed.

(** The time factor of a frame at a finite speed. *)
Lemma timeFactor_finite (now : Z) (st : state) (s : R) :
  orbitalSpeed st = Fin s ->
  timeFactor now st = Fin ((IZR now - IZR (lastTime st)) / 1000 * s).
Proof.
  intros Hs. unfold timeFactor. rewrite deltaTime_finite, Hs. reflexivity.
Qed.

(** The meshes after a run of frames at a finite speed: each one updated
    with the time factors of the run. *)
Lemma planetMeshes_frames (clock : list Z) :
  forall (st : state) (s : R),
  orbitalSpeed st = Fin s ->
  planetMeshes (frames clock st)
  = map (updates (map Fin (timeFactors (lastTime st) s clock)))
        (planetMeshes st).
Proof.
  induction clock as [| now clock IH]; intros st s Hs.
  - simpl. rewrite map_id. reflexivity.
  - rewrite frames_cons.
    destruct (animate_keeps now st) as (_ & Ks & _).
    rewrite (IH (animate now st) s) by (rewrite Ks; exact Hs).
    rewrite lastTime_animate, planetMeshes_animate, map_map.
    rewrite (timeFactor_finite now st s Hs). reflexivity.
Qed.

(** The time factors of a run add up to the time between its first and
    its last clock reading, scaled by the speed. *)
Lemma total_timeFactors (clock : list Z) :
  forall (last : Z) (s : R),
  total (timeFactors last s clock)
  = (IZR (lastReading last clock) - IZR last) / 1000 * s.
Proof.
  induction clock as [| now clock IH]; intros last s.
  - simpl. unfold lastReading; simpl. lra.
  - cbn [timeFactors total fold_right]. fold (total (timeFactors now s clock)).
    rewrite IH. unfold lastReading; simpl. lra.
Qed.

(** X12. The orbit angle does not depend on the frame rate.  At a finite
    speed [s], after any run of frames a body with a finite nonzero period
    [p] has gained the angle [2 * PI / (p * 60)] per simulated second of
    the time between the reading before the run and the last reading of
    the run, however the frames divide that time and whether or not the
    clock went back in between. *)
Theorem frames_orbit_angle (clock : list Z) (st : state) (s : R) (i : nat)
    (m : mesh) (p a d : R) :
  orbitalSpeed st = Fin s ->
  nth_error (planetMeshes st) i = Some m ->
  orbitalPeriod (data m) = Fin p -> p <> 0 ->
  orbitAngle (data m) = Fin a -> distance (data m) = Fin d ->
  exists m' : mesh,
    nth_error (planetMeshes (frames clock st)) i = Some m' /\
    orbitAngle (data m')
    = Fin (a + 2 * RPI / (p * 60)
               * ((IZR (lastReading (lastTime st) clock)
                   - IZR (lastTime st)) / 1000 * s)).
Proof.
  intros Hs Hi Hp Hp0 Ha Hd.
  exists (updates (map Fin (timeFactors (lastTime st) s clock)) m).
  rewrite (planetMeshes_frames clock st s Hs). split.
  - apply map_nth_error. exact Hi.
  - destruct (updates_orbiting (timeFactors (lastTime st) s clock)
                m p a d Hp Hp0 Ha Hd) as [-> _].
    rewrite total_timeFactors. reflexivity.
Qed.

Lemma frames_orbit_angle_witness :
  let st := createPlanet earth (initial 0) in
  exists m' : mesh,
    nth_error (planetMeshes (frames [16; 40; 33; 1000]%Z st)) 0 = Some m' /\
    orbitAngle (data m')
    = Fin (0 + 2 * RPI / (365.25 * 60)
               * ((IZR (lastReading (lastTime st) [16; 40; 33; 1000]%Z)
                   - IZR (lastTime st)) / 1000 * 1)).
Proof.
  intros st.
  apply (frames_orbit_angle [16; 40; 33; 1000]%Z st 1 0
           (newPlanetMesh (Fin 1) earth) 365.25 0
           ((149598023 / 1000 + 696340) * 10)).
  - reflexivity.
  - reflexivity.
  - reflexivity.
  - lra.
  - reflexivity.
  - simpl. unfold adjustedDistance; simpl.
    destruct (Req_dec_T 1000 0); [lra | reflexivity].
Defined.

(** What any number of updates leaves alone in a mesh. *)
Lemma updates_keeps (tfs : list number) :
  forall m : mesh,
  geometryRadius (updates tfs m) = geometryRadius m /\
  scale (updates tfs m) = scale m /\
  name (data (updates tfs m)) = name (data m) /\
  distance (data (updates tfs m)) = distance (data m) /\
  radius (data (updates tfs m)) = radius (data m) /\
  orbitalPeriod (data (updates tfs m)) = orbitalPeriod (data m) /\
  rotationPeriod (data (updates tfs m)) = rotationPeriod (data m).
Proof.
  induction tfs as [| tf tfs IH]; intros m.
  - repeat split.
  - rewrite updates_cons.
    destruct (IH (updateMesh tf m)) as (H1 & H2 & H3 & H4 & H5 & H6 & H7).
    rewrite H1, H2, H3, H4, H5, H6, H7. repeat split.
Qed.

(** X13. A run of frames writes the angles, the positions, the camera and
    [lastTime] and nothing else: the compression amount, the speed and the
    selection are as before, there are as many meshes, each with its
    geometry, scale, name, distance, radius and periods unchanged, and
    [lastTime] is the last clock reading of the run. *)
Theorem frames_invariants (clock : list Z) (st : state) :
  lastTime (frames clock st) = lastReading (lastTime st) clock /\
  compressionAmount (frames clock st) = compressionAmount st /\
  orbitalSpeed (frames clock st) = orbitalSpeed st /\
  selectedPlanet (frames clock st) = selectedPlanet st /\
  map descriptor (planetMeshes (frames clock st))
  = map descriptor (planetMeshes st).
Proof.
  revert st. induction clock as [| now clock IH]; intros st.
  - repeat split.
  - rewrite frames_cons.
    destruct (IH (animate now st)) as (Hl & Hk & Hs & Hsel & Hd).
    destruct (animate_keeps now st) as (Kk & Ks & Ksel).
    rewrite Hl, Hk, Hs, Hsel, Hd, Kk, Ks, Ksel, lastTime_animate.
    repeat split.
    rewrite planetMeshes_animate, map_map. apply map_ext.
    intros m. reflexivity.
Qed.

(** A sum of numbers that is finite has finite terms. *)
Lemma add_finite (a b : number) :
  is_finite (a + b)%num -> is_finite a /\ is_finite b.
Proof. destruct a, b; simpl; intros H; try contradiction; split; exact I. Qed.

(** X14. An angle that has left the finite numbers never comes back: if
    the orbit angle (or the rotation angle) of a mesh is infinite or NaN,
    it is still infinite or NaN after any number of updates, whatever
    their time factors. *)
Theorem angles_never_recover (tfs : list number) (m : mesh) :
  (~ is_finite (orbitAngle (data m)) ->
   ~ is_finite (orbitAngle (data (updates tfs m)))) /\
  (~ is_finite (rotationAngle (data m)) ->
   ~ is_finite (rotationAngle (data (updates tfs m)))).
Proof.
  revert m. induction tfs as [| tf tfs IH]; intros m.
  - split; intros H; exact H.
  - rewrite updates_cons. destruct (IH (updateMesh tf m)) as [IHo IHr].
    split; intros H.
    + apply IHo. rewrite orbitAngle_updateMesh. intros F.
      apply add_finite in F. apply H, F.
    + apply IHr. rewrite rotationAngle_updateMesh. intros F.
      apply add_finite in F. apply H, F.
Qed.

Lemma angles_never_recover_witness :
  ~ is_finite
      (orbitAngle
         (data (updates [Fin 1; Fin (-1)] (updateMesh (Fin 1) sunMesh)))).
Proof.
  apply (proj1 (angles_never_recover [Fin 1; Fin (-1)]
                  (updateMesh (Fin 1) sunMesh))).
  rewrite orbitAngle_updateMesh. simpl orbitalPeriod.
  rewrite angularSpeed_zero. simpl. unfold inf_signed. real_cases.
  simpl. intros [].
Defined.

(** X15. A body with a finite nonzero period, a finite angle and a finite
    distance [d] stays on its circle: after any number of updates with
    finite time factors, at least one, its height is unchanged and its
    horizontal distance to the origin is [d]. *)
Theorem orbit_radius_constant (ts : list R) (m : mesh) (p a d : R) :
  orbitalPeriod (data m) = Fin p -> p <> 0 ->
  orbitAngle (data m) = Fin a -> distance (data m) = Fin d ->
  ts <> [] ->
  exists px pz : R,
    position (updates (map Fin ts) m)
    = mkVec3 (Fin px) (y (position m)) (Fin pz) /\
    px * px + pz * pz = d * d.
Proof.
  intros Hp Hp0 Ha Hd Hne.
  destruct (updates_orbiting ts m p a d Hp Hp0 Ha Hd) as [_ Hpos].
  rewrite (Hpos Hne). unfold onOrbit.
  do 2 eexists. split; [reflexivity |].
  pose proof (sin2_cos2 (a + 2 * RPI / (p * 60) * total ts)) as H.
  unfold Rsqr in H. nra.
Qed.

Lemma orbit_radius_constant_witness :
  let m := newPlanetMesh (Fin 1) earth in
  exists px pz : R,
    position (updates (map Fin [0.016; 0.5]) m)
    = mkVec3 (Fin px) (y (position m)) (Fin pz) /\
    px * px + pz * pz
    = (149598023 / 1000 + 696340) * 10 * ((149598023 / 1000 + 696340) * 10).
Proof.
  intros m.
  apply (orbit_radius_constant [0.016; 0.5] m 365.25 0).
  - reflexivity.
  - lra.
  - reflexivity.
  - simpl. unfold adjustedDistance; simpl.
    destruct (Req_dec_T 1000 0); [lra | reflexivity].
  - discriminate.
Defined.

End FrameRuns.

(** ** The camera and the clicks *)

Section Camera.

(** What [updateCamera] leaves alone. *)
Lemma updateCamera_keeps (st : state) :
  selectedPlanet (updateCamera st) = selectedPlanet st /\
  planetMeshes (updateCamera st) = planetMeshes st.
Proof.
  unfold updateCamera. destruct (selectedPlanet st) as [i |] eqn:E;
    [| split; [exact E | reflexivity]].
  destruct (nth_error (planetMeshes st) i); split;
    try exact E; reflexivity.
Qed.

(** The camera after [updateCamera] with a selected mesh: a tenth of the
    way from where it was to the target of the mesh. *)
Lemma cameraPosition_updateCamera (st : state) (i : nat) (sel : mesh) :
  selectedPlanet st = Some i ->
  nth_error (planetMeshes st) i = Some sel ->
  cameraPosition (updateCamera st)
  = lerp (cameraPosition st) (targetPosition sel) (Fin 0.1).
Proof.
  intros Hsel Hi. unfold updateCamera. rewrite Hsel, Hi. reflexivity.
Qed.

(** X17, in exact arithmetic.  With a body selected, one call of
    [updateCamera] moves the camera towards the point 400 above and 1.5e6
    in front of the body and leaves it at nine tenths of its former offset
    from that point, on each axis.  (What the orbit controls do to the
    camera afterwards is outside the model.) *)
Theorem updateCamera_step (st : state) (i : nat) (sel : mesh)
    (px py pz cx cy cz : R) :
  selectedPlanet st = Some i ->
  nth_error (planetMeshes st) i = Some sel ->
  position sel = mkVec3 (Fin px) (Fin py) (Fin pz) ->
  cameraPosition st = mkVec3 (Fin cx) (Fin cy) (Fin cz) ->
  exists cx' cy' cz' : R,
    cameraPosition (updateCamera st) = mkVec3 (Fin cx') (Fin cy') (Fin cz') /\
    cx' - px = 0.9 * (cx - px) /\
    cy' - (py + 400) = 0.9 * (cy - (py + 400)) /\
    cz' - (pz + 1.5e6) = 0.9 * (cz - (pz + 1.5e6)).
Proof.
  intros Hsel Hi Hp Hc.
  rewrite (cameraPosition_updateCamera st i sel Hsel Hi).
  unfold lerp, targetPosition. rewrite Hp, Hc. simpl.
  do 3 eexists. split; [reflexivity |]. repeat split; lra.
Qed.

Lemma updateCamera_step_witness :
  let st := select 0 (createPlanet getSunData (initial 0)) in
  exists cx' cy' cz' : R,
    cameraPosition (updateCamera st) = mkVec3 (Fin cx') (Fin cy') (Fin cz') /\
    cx' - 696340 * 10 = 0.9 * (0 - 696340 * 10) /\
    cy' - (0 + 400) = 0.9 * (400 - (0 + 400)) /\
    cz' - (0 + 1.5e6) = 0.9 * (1e7 - (0 + 1.5e6)).
Proof.
  intros st.
  apply (updateCamera_step st 0 sunMesh).
  - reflexivity.
  - reflexivity.
  - cbn [sunMesh newPlanetMesh position].
    unfold adjustedDistance, SUN_RADIUS, DISTANCE_SCALE; simpl.
    destruct (Req_dec_T 1000 0); [lra |]. simpl. f_equal. f_equal. lra.
  - reflexivity.
Defined.

(** X18, in exact arithmetic.  Successive calls of [updateCamera] alone,
    with the selected body at rest, take the camera to the point 400
    above and 1.5e6 in front of the body geometrically: after [n] calls
    its offset from that point is [0.9 ^ n] times the offset it started
    with, on each axis.  (In the program the orbit controls rewrite the
    camera between two calls; they are outside the model.) *)
Theorem updateCamera_converges (n : nat) (st : state) (i : nat) (sel : mesh)
    (px py pz cx cy cz : R) :
  selectedPlanet st = Some i ->
  nth_error (planetMeshes st) i = Some sel ->
  position sel = mkVec3 (Fin px) (Fin py) (Fin pz) ->
  cameraPosition st = mkVec3 (Fin cx) (Fin cy) (Fin cz) ->
  selectedPlanet (Nat.iter n updateCamera st) = Some i /\
  planetMeshes (Nat.iter n updateCamera st) = planetMeshes st /\
  cameraPosition (Nat.iter n updateCamera st)
  = mkVec3 (Fin (px + 0.9 ^ n * (cx - px)))
           (Fin (py + 400 + 0.9 ^ n * (cy - (py + 400))))
           (Fin (pz + 1.5e6 + 0.9 ^ n * (cz - (pz + 1.5e6)))).
Proof.
  intros Hsel Hi Hp Hc. induction n as [| n IH].
  - simpl. repeat split; try assumption. rewrite Hc. f_equal; f_equal; lra.
  - destruct IH as (IHsel & IHm & IHc). rewrite !Nat.iter_succ.
    destruct (updateCamera_keeps (Nat.iter n updateCamera st)) as [Ks Km].
    rewrite Ks, Km, IHsel, IHm. repeat split.
    rewrite (cameraPosition_updateCamera _ i sel IHsel)
      by (rewrite IHm; exact Hi).
    rewrite IHc. unfold lerp, targetPosition. rewrite Hp. simpl.
    f_equal; f_equal; nra.
Qed.

Lemma updateCamera_converges_witness :
  let st := select 0 (createPlanet getSunData (initial 0)) in
  selectedPlanet (Nat.iter 3 updateCamera st) = Some 0%nat /\
  planetMeshes (Nat.iter 3 updateCamera st) = planetMeshes st /\
  cameraPosition (Nat.iter 3 updateCamera st)
  = mkVec3 (Fin (696340 * 10 + 0.9 ^ 3 * (0 - 696340 * 10)))
           (Fin (0 + 400 + 0.9 ^ 3 * (400 - (0 + 400))))
           (Fin (0 + 1.5e6 + 0.9 ^ 3 * (1e7 - (0 + 1.5e6)))).
Proof.
  intros st.
  apply (updateCamera_converges 3 st 0 sunMesh).
  - reflexivity.
  - reflexivity.
  - cbn [sunMesh newPlanetMesh position].
    unfold adjustedDistance, SUN_RADIUS, DISTANCE_SCALE; simpl.
    destruct (Req_dec_T 1000 0); [lra |]. simpl. f_equal. f_equal. lra.
  - reflexivity.
Defined.

(** X19. Of the two hits of a click the orbit line wins: after
    [onCanvasClick] the selection is the body of the orbit line that was
    hit, else the planet that was hit, else what it was before the click,
    so that a click on empty space deselects nothing; and the click
    changes nothing but the selection. *)
Theorem onCanvasClick_selection (planetHit orbitHit : option nat)
    (st : state) :
  selectedPlanet (onCanvasClick planetHit orbitHit st)
  = match orbitHit, planetHit with
    | Some j, _ => Some j
    | None, Some i => Some i
    | None, None => selectedPlanet st
    end /\
  closePopup (onCanvasClick planetHit orbitHit st) = closePopup st.
Proof.
  destruct planetHit, orbitHit; split; reflexivity.
Qed.

(** X20. The pointer position handed to the ray caster lies in the square
    [[-1, 1] x [-1, 1]] for every click inside a window of positive
    width and height, the top left corner of the window being [(-1, 1)]. *)
Theorem mouse_in_square (clientX clientY innerWidth innerHeight : R) :
  0 < innerWidth -> 0 < innerHeight ->
  0 <= clientX <= innerWidth -> 0 <= clientY <= innerHeight ->
  exists mx my : R,
    mouse (Fin clientX) (Fin clientY) (Fin innerWidth) (Fin innerHeight)
    = (Fin mx, Fin my) /\
    -1 <= mx <= 1 /\ -1 <= my <= 1 /\
    (clientX = 0 -> mx = -1) /\ (clientY = 0 -> my = 1).
Proof.
  intros Hw Hh Hx Hy. unfold mouse; simpl.
  destruct (Req_dec_T innerWidth 0); [lra |].
  destruct (Req_dec_T innerHeight 0); [lra |].
  do 2 eexists. split; [reflexivity |].
  assert (Hiw : 0 < / innerWidth) by (apply Rinv_0_lt_compat; lra).
  assert (Hih : 0 < / innerHeight) by (apply Rinv_0_lt_compat; lra).
  assert (Hxw : 0 <= clientX / innerWidth <= 1).
  { unfold Rdiv. split; [nra |].
    apply Rmult_le_reg_r with innerWidth; [lra |].
    rewrite Rmult_assoc, Rinv_l by lra. lra. }
  assert (Hyh : 0 <= clientY / innerHeight <= 1).
  { unfold Rdiv. split; [nra |].
    apply Rmult_le_reg_r with innerHeight; [lra |].
    rewrite Rmult_assoc, Rinv_l by lra. lra. }
  repeat split; try lra.
  - intros ->. unfold Rdiv. lra.
  - intros ->. unfold Rdiv. lra.
Qed.

Lemma mouse_in_square_witness :
  exists mx my : R,
    mouse (Fin 960) (Fin 0) (Fin 1920) (Fin 1080) = (Fin mx, Fin my) /\
    -1 <= mx <= 1 /\ -1 <= my <= 1 /\
    (960 = 0 -> mx = -1) /\ (0 = 0 -> my = 1).
Proof. apply (mouse_in_square 960 0 1920 1080); lra. Defined.

(** One event and the selection, the speed. *)
Lemma handle_selection_speed (e : event) (st : state) :
  selectedPlanet (handle e st)
  = match e with
    | Select i => Some i
    | Close => None
    | _ => selectedPlanet st
    end /\
  orbitalSpeed (handle e st)
  = match e with SpeedInput value => value | _ => orbitalSpeed st end.
Proof.
  destruct e; try (split; reflexivity).
  destruct (animate_keeps now st) as (_ & Ks & Ksel). split; assumption.
Qed.

(** X21. At most one body is selected and the last word wins: after any
    sequence of events the selection is the body of the last selecting
    click, none if a close came after it, and the speed is the value of
    the last speed input; frames and the other inputs change neither. *)
Theorem run_selection_speed (events : list event) (st : state) :
  selectedPlanet (run events st) = lastSelection events (selectedPlanet st) /\
  orbitalSpeed (run events st) = lastSpeedInput events (orbitalSpeed st).
Proof.
  revert st. induction events as [| e events IH]; intros st.
  - split; reflexivity.
  - unfold run, lastSelection, lastSpeedInput in *. simpl.
    destruct (IH (handle e st)) as [Hsel Hs].
    destruct (handle_selection_speed e st) as [Esel Es].
    rewrite Hsel, Hs, Esel, Es. split; reflexivity.
Qed.

End Camera.

(** ** The stars *)

Section Stars.

Lemma length_flat_map_three {A B : Type} (f : A -> list B) (l : list A) :
  (forall a : A, List.length (f a) = 3%nat) ->
  List.length (flat_map f l) = (3 * List.length l)%nat.
Proof.
  intros Hf. induction l as [| a l IH]; [reflexivity |].
  cbn [flat_map]. rewrite length_app, IH, Hf. simpl. lia.
Qed.

(** X22. [createStars] computes three coordinates for each of the 10000
    stars, and as [Math.random] returns numbers of [[0, 1)] every
    coordinate, before it is stored as a 32-bit float, is a finite number
    of [[-5e8, 5e8)]. *)
Theorem starVertices_bounds (random : nat -> R) :
  (forall j : nat, 0 <= random j < 1) ->
  List.length (starVertices random) = (3 * starCount)%nat /\
  forall v : number, In v (starVertices random) ->
    exists c : R, v = Fin c /\ -5e8 <= c < 5e8.
Proof.
  intros Hrandom. unfold starVertices. split.
  - rewrite length_flat_map_three by reflexivity.
    rewrite length_seq. reflexivity.
  - intros v Hin. apply in_flat_map in Hin. destruct Hin as (star & _ & Hv).
    assert (G : forall j, exists c : R,
                  starCoordinate (random j) = Fin c /\ -5e8 <= c < 5e8).
    { intros j. unfold starCoordinate, sub; simpl.
      eexists; split; [reflexivity |]. pose proof (Hrandom j). lra. }
    destruct Hv as [<- | [<- | [<- | []]]]; apply G.
Qed.

Lemma starVertices_bounds_witness :
  List.length (starVertices (fun _ => 0.25)) = (3 * starCount)%nat /\
  forall v : number, In v (starVertices (fun _ => 0.25)) ->
    exists c : R, v = Fin c /\ -5e8 <= c < 5e8.
Proof. apply (starVertices_bounds (fun _ => 0.25)). intros _. lra. Defined.

End Stars.
